(** * refactor-mcp demo: [calculate_total] and [calculate_average]

    A shallow embedding of [demo/deep/nested/math.py] and the properties of
    its two functions.

    The functions receive a reference to a Python list of numbers.  Numbers
    are Python [int]s (unbounded, modelled by [Z]) and Python [float]s (IEEE
    754 binary64, modelled by the Standard Library's [spec_float] with
    precision 53 and maximal exponent 1024).  Arithmetic can raise
    [OverflowError] and [ZeroDivisionError]; the functions run in a small
    state-and-exception monad over a store of list objects, so that what they
    read and what they leave untouched can both be stated. *)

From Stdlib Require Import ZArith PArith QArith List Bool Lia Permutation.
From Stdlib Require Import Floats.SpecFloat.
Import ListNotations.

Local Open Scope Z_scope.

(** ** Numbers *)

Module Float64.

Definition prec : Z := 53.
Definition emax : Z := 1024.

(** A float object always holds a canonical binary64 value. *)
Definition valid (f : spec_float) : bool := valid_binary prec emax f.

Definition is_nan (f : spec_float) : bool :=
  match f with S754_nan => true | _ => false end.

Definition is_zero (f : spec_float) : bool :=
  match f with S754_zero _ => true | _ => false end.

Definition is_finite (f : spec_float) : bool :=
  match f with S754_zero _ | S754_finite _ _ _ => true | _ => false end.

Definition add : spec_float -> spec_float -> spec_float := SFadd prec emax.
Definition div : spec_float -> spec_float -> spec_float := SFdiv prec emax.
Definition eqb : spec_float -> spec_float -> bool := SFeqb.

(** The rational number a finite float stands for. *)
Definition to_Q (f : spec_float) : option Q :=
  match f with
  | S754_zero _ => Some 0%Q
  | S754_finite s m e =>
      Some (inject_Z (cond_Zopp s (Zpos m)) * Qpower (2 # 1) e)%Q
  | S754_infinity _ | S754_nan => None
  end.

Definition one : spec_float := S754_finite false 4503599627370496 (-52).
Definition two_and_a_half : spec_float :=
  S754_finite false 5629499534213120 (-51).

End Float64.

Inductive number : Type :=
| PyInt (z : Z)
| PyFloat (f : spec_float).

Inductive exn : Type :=
| OverflowError
| ZeroDivisionError.

Inductive result (A : Type) : Type :=
| Ok (a : A)
| Raise (e : exn).

Arguments Ok {A} a.
Arguments Raise {A} e.

Definition result_bind {A B} (r : result A) (k : A -> result B) : result B :=
  match r with
  | Ok a => k a
  | Raise e => Raise e
  end.

(** ** Arithmetic of the host language *)

(** [float(z)]: the nearest binary64 value, ties to even; an [int] beyond the
    range of a float raises [OverflowError]. *)
Definition int_to_float (z : Z) : result spec_float :=
  match binary_normalize Float64.prec Float64.emax z 0 false with
  | S754_infinity _ => Raise OverflowError
  | f => Ok f
  end.

(** [a + b] on numbers: exact on two [int]s; a mixed sum converts the [int]
    operand to a float first. *)
Definition py_add (a b : number) : result number :=
  match a, b with
  | PyInt x, PyInt y => Ok (PyInt (x + y))
  | PyInt x, PyFloat g =>
      result_bind (int_to_float x) (fun f => Ok (PyFloat (Float64.add f g)))
  | PyFloat f, PyInt y =>
      result_bind (int_to_float y) (fun g => Ok (PyFloat (Float64.add f g)))
  | PyFloat f, PyFloat g => Ok (PyFloat (Float64.add f g))
  end.

(** [a / b] on two [int]s: the correctly rounded quotient, computed from the
    exact integers; the sign of a zero quotient is the sign of the divisor. *)
Definition int_true_divide (a b : Z) : result spec_float :=
  match b with
  | Z0 => Raise ZeroDivisionError
  | _ =>
      match a with
      | Z0 => Ok (S754_zero (b <? 0))
      | _ =>
          match Float64.div (S754_finite (a <? 0) (Z.to_pos (Z.abs a)) 0)
                            (S754_finite (b <? 0) (Z.to_pos (Z.abs b)) 0) with
          | S754_infinity _ => Raise OverflowError
          | f => Ok f
          end
      end
  end.

(** [f / g] on two floats raises on a zero divisor instead of returning an
    infinity or a NaN. *)
Definition float_true_divide (f g : spec_float) : result spec_float :=
  if Float64.is_zero g then Raise ZeroDivisionError else Ok (Float64.div f g).

Definition py_truediv (a b : number) : result number :=
  match a, b with
  | PyInt x, PyInt y =>
      result_bind (int_true_divide x y) (fun q => Ok (PyFloat q))
  | PyInt x, PyFloat g =>
      result_bind (int_to_float x) (fun f =>
      result_bind (float_true_divide f g) (fun q => Ok (PyFloat q)))
  | PyFloat f, PyInt y =>
      result_bind (int_to_float y) (fun g =>
      result_bind (float_true_divide f g) (fun q => Ok (PyFloat q)))
  | PyFloat f, PyFloat g =>
      result_bind (float_true_divide f g) (fun q => Ok (PyFloat q))
  end.

(** [f == z] between a float and an [int] compares the exact values. *)
Definition float_eq_int (f : spec_float) (z : Z) : bool :=
  match f with
  | S754_zero _ => z =? 0
  | S754_finite s m e =>
      if 0 <=? e then z =? cond_Zopp s (Zpos m) * 2 ^ e
      else z * 2 ^ (- e) =? cond_Zopp s (Zpos m)
  | S754_infinity _ | S754_nan => false
  end.

(** [a == b] on numbers. *)
Definition py_eq (a b : number) : bool :=
  match a, b with
  | PyInt x, PyInt y => x =? y
  | PyInt x, PyFloat g => float_eq_int g x
  | PyFloat f, PyInt y => float_eq_int f y
  | PyFloat f, PyFloat g => Float64.eqb f g
  end.

(** ** The store and the monad of function bodies *)

Definition ref : Type := nat.

(** Every reference designates a list object; the store gives its items. *)
Definition heap : Type := ref -> list number.

Definition M (A : Type) : Type := heap -> result A * heap.

Definition ret {A} (a : A) : M A := fun h => (Ok a, h).

Definition lift {A} (r : result A) : M A := fun h => (r, h).

Definition bind {A B} (m : M A) (k : A -> M B) : M B :=
  fun h =>
    match m h with
    | (Ok a, h') => k a h'
    | (Raise e, h') => (Raise e, h')
    end.

Definition deref (r : ref) : M (list number) := fun h => (Ok (h r), h).

Declare Scope py_scope.
Delimit Scope py_scope with py.
Notation "x <- m ;; k" := (bind m (fun x => k))
  (at level 100, m at next level, right associativity) : py_scope.
Local Open Scope py_scope.

(** ** Built-in functions used by the module *)

(** [sum(items)] adds the items from left to right onto the [int] [0].
    (Recent interpreters add a run of floats with a compensated algorithm;
    nothing below depends on how a sum of several floats is rounded, and the
    sums evaluated on floats give the same float either way.) *)
Fixpoint sum_from (acc : number) (xs : list number) : result number :=
  match xs with
  | [] => Ok acc
  | x :: rest => result_bind (py_add acc x) (fun acc' => sum_from acc' rest)
  end.

Definition builtin_sum (items : ref) : M number :=
  xs <- deref items ;; lift (sum_from (PyInt 0) xs).

Definition builtin_len (items : ref) : M number :=
  xs <- deref items ;; ret (PyInt (Z.of_nat (length xs))).

(** The truth value of a list: it is true when the list has an item. *)
Definition truth (items : ref) : M bool :=
  xs <- deref items ;; ret (negb (Nat.eqb (length xs) 0)).

(** ** The module [math.py] *)

Definition calculate_total (items : ref) : M number :=
  builtin_sum items.

Definition calculate_average (items : ref) : M number :=
  t <- truth items ;;
  if negb t then ret (PyInt 0)
  else
    total <- calculate_total items ;;
    n <- builtin_len items ;;
    lift (py_truediv total n).

(** Calling a function on a fresh list object holding [xs]. *)
Definition call {A} (f : ref -> M A) (xs : list number) : result A :=
  fst (f 0%nat (fun _ => xs)).

(** ** What the claims speak about *)

(** [r == v] for the outcome [r] of a call: the call returned a number that
    compares equal to [v]. *)
Definition returns_eq (r : result number) (v : number) : bool :=
  match r with
  | Ok a => py_eq a v
  | Raise _ => false
  end.

Definition is_int (v : number) : bool :=
  match v with PyInt _ => true | PyFloat _ => false end.

Definition is_float (v : number) : bool :=
  match v with PyInt _ => false | PyFloat _ => true end.

(** A sequence of [int]s only, or of floats only. *)
Definition one_kind (xs : list number) : bool :=
  forallb is_int xs || forallb is_float xs.

(** A finite number: an [int], or a float that is neither infinite nor NaN. *)
Definition finite_number (v : number) : bool :=
  match v with
  | PyInt _ => true
  | PyFloat f => Float64.is_finite f
  end.

(** A float object of the interpreter: canonical, and here not a NaN. *)
Definition comparable (v : number) : bool :=
  match v with
  | PyInt _ => true
  | PyFloat f => Float64.valid f && negb (Float64.is_nan f)
  end.

(** A number that a float holds exactly as far as this development shows:
    any float, and any [int] of magnitude at most 2^53. *)
Definition exact_in_float (v : number) : bool :=
  match v with
  | PyInt z => Z.abs z <=? 2 ^ 53
  | PyFloat _ => true
  end.

Definition number_value (v : number) : option Q :=
  match v with
  | PyInt z => Some (inject_Z z)
  | PyFloat f => Float64.to_Q f
  end.

(** The sum of the items as rational numbers, without any rounding. *)
Fixpoint math_sum (xs : list number) : option Q :=
  match xs with
  | [] => Some 0%Q
  | x :: rest =>
      match number_value x, math_sum rest with
      | Some q, Some s => Some (q + s)%Q
      | _, _ => None
      end
  end.

(** [calculate_total] returned exactly the mathematical sum of [xs]. *)
Definition total_is_math_sum (xs : list number) : bool :=
  match call calculate_total xs, math_sum xs with
  | Ok v, Some s =>
      match number_value v with
      | Some q => Qeq_bool q s
      | None => false
      end
  | _, _ => false
  end.

Definition Zsum (zs : list Z) : Z := fold_right Z.add 0 zs.

(** The floats 2^53 and 1.0: their sum, 2^53 + 1, is not a binary64 value. *)
Definition two_pow_53_and_one : list number :=
  [PyFloat (S754_finite false 4503599627370496 1); PyFloat Float64.one].

(** The [int] 2^53 + 1, the least positive [int] that no float holds. *)
Definition two_pow_53_plus_one : number := PyInt 9007199254740993.

(** An [int] beyond the range of a float. *)
Definition ten_pow_400 : number := PyInt (10 ^ 400).

(** [-v] on numbers. *)
Definition py_neg (v : number) : number :=
  match v with
  | PyInt z => PyInt (- z)
  | PyFloat f => PyFloat (SFopp f)
  end.

(** [v >= 0] on numbers; it is false on a NaN and true on both zeros. *)
Definition py_nonneg (v : number) : bool :=
  match v with
  | PyInt z => 0 <=? z
  | PyFloat (S754_zero _) => true
  | PyFloat (S754_finite s _ _) => negb s
  | PyFloat (S754_infinity s) => negb s
  | PyFloat S754_nan => false
  end.

(** The float 1.5. *)
Definition one_and_a_half : number :=
  PyFloat (S754_finite false 6755399441055744 (-52)).

(** * Properties *)

(** ** Running the two functions *)

Lemma calculate_total_run (h : heap) (items : ref) :
  calculate_total items h = (sum_from (PyInt 0) (h items), h).
Proof. reflexivity. Qed.

Lemma calculate_average_run (h : heap) (items : ref) :
  calculate_average items h =
  (match h items with
   | [] => Ok (PyInt 0)
   | _ :: _ =>
       result_bind (sum_from (PyInt 0) (h items))
         (fun t => py_truediv t (PyInt (Z.of_nat (length (h items)))))
   end, h).
Proof.
  cbv [calculate_average calculate_total builtin_sum builtin_len truth
       bind deref lift ret].
  destruct (h items) as [|x xs] eqn:E; [reflexivity|].
  cbn -[sum_from py_truediv Z.of_nat]. rewrite E.
  destruct (sum_from (PyInt 0) (x :: xs)); reflexivity.
Qed.

Lemma sum_from_ints (zs : list Z) :
  forall acc, sum_from (PyInt acc) (map PyInt zs) = Ok (PyInt (acc + Zsum zs)).
Proof.
  induction zs as [|z zs IH]; intros acc; simpl.
  - now rewrite Z.add_0_r.
  - rewrite IH. f_equal. f_equal. lia.
Qed.

Lemma Zsum_Permutation (xs ys : list Z) :
  Permutation xs ys -> Zsum xs = Zsum ys.
Proof.
  induction 1; simpl; lia.
Qed.

Lemma math_sum_ints (zs : list Z) :
  exists s, math_sum (map PyInt zs) = Some s /\ (s == inject_Z (Zsum zs))%Q.
Proof.
  induction zs as [|z zs [s [E Hs]]]; simpl.
  - exists 0%Q. split; reflexivity.
  - rewrite E. exists (inject_Z z + s)%Q. split; [reflexivity|].
    rewrite Hs, inject_Z_plus. reflexivity.
Qed.


(** ** Rounding to binary64 *)

Section Rounding.

Local Abbreviation prec := Float64.prec.
Local Abbreviation emax := Float64.emax.

Lemma iter_pos_iter {A} (f : A -> A) (p : positive) :
  forall x, iter_pos f p x = Pos.iter f x p.
Proof.
  induction p as [p IH|p IH|]; intros x; simpl.
  - rewrite !IH, !Pos.iter_swap. reflexivity.
  - rewrite !IH. reflexivity.
  - reflexivity.
Qed.

Lemma iter_shr_1_exact (k : positive) :
  forall m, Pos.iter shr_1 (Build_shr_record (Zpos (Pos.iter xO m k)) false false) k
            = Build_shr_record (Zpos m) false false.
Proof.
  induction k as [|k IH] using Pos.peano_ind; intros m.
  - reflexivity.
  - rewrite Pos.iter_succ, <- Pos.iter_swap, Pos.iter_succ. simpl. apply IH.
Qed.

Lemma digits2_pos_iter_xO (m k : positive) :
  digits2_pos (Pos.iter xO m k) = (digits2_pos m + k)%positive.
Proof.
  induction k as [|k IH] using Pos.peano_ind.
  - simpl. now rewrite Pos.add_1_r.
  - rewrite Pos.iter_succ. simpl. rewrite IH. now rewrite Pos.add_succ_r.
Qed.

Lemma bounded_inv (m : positive) (e : Z) :
  bounded prec emax m e = true ->
  fexp prec emax (Zpos (digits2_pos m) + e) = e /\ e <= 971.
Proof.
  unfold bounded, canonical_mantissa. intros H.
  apply andb_true_iff in H. destruct H as [H1 H2].
  apply Z.eqb_eq in H1. apply Z.leb_le in H2. split; [exact H1|].
  exact H2.
Qed.

Lemma binary_round_aux_canonical (sx : bool) (m : positive) (e : Z) :
  bounded prec emax m e = true ->
  binary_round_aux prec emax sx (Zpos m) e loc_Exact = S754_finite sx m e.
Proof.
  intros B. destruct (bounded_inv m e B) as [C L].
  unfold binary_round_aux, shr_fexp. cbn [Zdigits2]. rewrite C, Z.sub_diag.
  cbn [shr shr_record_of_loc shr_m loc_of_shr_record round_nearest_even Zdigits2].
  rewrite C, Z.sub_diag. cbn [shr shr_m].
  apply Z.leb_le in L. change (emax - prec) with 971. now rewrite L.
Qed.

Lemma binary_round_aux_shifted (sx : bool) (m k : positive) (e : Z) :
  bounded prec emax m (e + Zpos k) = true ->
  binary_round_aux prec emax sx (Zpos (Pos.iter xO m k)) e loc_Exact
  = S754_finite sx m (e + Zpos k).
Proof.
  intros B. destruct (bounded_inv m _ B) as [C L].
  unfold binary_round_aux, shr_fexp. cbn [Zdigits2].
  rewrite digits2_pos_iter_xO, Pos2Z.inj_add.
  replace (Zpos (digits2_pos m) + Zpos k + e) with (Zpos (digits2_pos m) + (e + Zpos k)) by lia.
  rewrite C. replace (e + Zpos k - e) with (Zpos k) by lia.
  cbn [shr shr_record_of_loc]. rewrite iter_pos_iter, iter_shr_1_exact.
  cbn [shr shr_record_of_loc shr_m loc_of_shr_record round_nearest_even Zdigits2].
  rewrite C, Z.sub_diag. cbn [shr shr_m].
  apply Z.leb_le in L. change (emax - prec) with 971. now rewrite L.
Qed.


Lemma div_eucl_pair (a b : Z) : Z.div_eucl a b = (a / b, a mod b).
Proof.
  unfold Z.div, Z.modulo. destruct (Z.div_eucl a b). reflexivity.
Qed.

Lemma Zpos_iter_xO (m k : positive) :
  Zpos (Pos.iter xO m k) = Zpos m * 2 ^ Zpos k.
Proof.
  induction k as [|k IH] using Pos.peano_ind.
  - simpl. lia.
  - rewrite Pos.iter_succ, Pos2Z.inj_xO, IH, Pos2Z.inj_succ, Z.pow_succ_r by lia.
    ring.
Qed.

Lemma binary_round_aux_exact (sx : bool) (m : positive) (e j : Z) :
  0 <= j ->
  bounded prec emax m (e + j) = true ->
  binary_round_aux prec emax sx (Zpos m * 2 ^ j) e loc_Exact
  = S754_finite sx m (e + j).
Proof.
  intros Hj B. destruct j as [|k|k]; [| |lia].
  - rewrite Z.add_0_r in *. rewrite Z.pow_0_r, Z.mul_1_r.
    now apply binary_round_aux_canonical.
  - rewrite <- Zpos_iter_xO. now apply binary_round_aux_shifted.
Qed.

Lemma shl_align_spec (p : positive) (e e' : Z) :
  shl_align p e e' =
  if e' <? e then (Pos.iter xO p (Z.to_pos (e - e')), e') else (p, e).
Proof.
  unfold shl_align.
  destruct (Z.ltb_spec e' e) as [L|L]; destruct (e' - e) as [|d|d] eqn:E;
    try lia; try reflexivity.
  replace (e - e') with (Zpos d) by lia. reflexivity.
Qed.

Lemma shifted_mantissa (m : Z) (s : Z) :
  match s with
  | Zpos _ => Z.shiftl m s
  | Z0 => m
  | Zneg _ => 0
  end = if 0 <=? s then m * 2 ^ s else 0.
Proof.
  destruct s as [|k|k]; simpl (_ <=? _).
  - now rewrite Z.pow_0_r, Z.mul_1_r.
  - apply Z.shiftl_mul_pow2. lia.
  - reflexivity.
Qed.

Lemma digits2_pos_lower (m : positive) :
  2 ^ (Zpos (digits2_pos m) - 1) <= Zpos m.
Proof.
  induction m as [m IH|m IH|]; simpl digits2_pos.
  - rewrite Pos2Z.inj_succ, (Pos2Z.inj_xI m).
    replace (Z.succ (Zpos (digits2_pos m)) - 1) with (Z.succ (Zpos (digits2_pos m) - 1)) by lia.
    rewrite Z.pow_succ_r by lia. lia.
  - rewrite Pos2Z.inj_succ, (Pos2Z.inj_xO m).
    replace (Z.succ (Zpos (digits2_pos m)) - 1) with (Z.succ (Zpos (digits2_pos m) - 1)) by lia.
    rewrite Z.pow_succ_r by lia. lia.
  - simpl. lia.
Qed.

(** Dividing a float by 1.0 returns the float. *)
Lemma div_finite_by_one (sx : bool) (m : positive) (e : Z) :
  bounded prec emax m e = true ->
  Float64.div (S754_finite sx m e) Float64.one = S754_finite sx m e.
Proof.
  intros B. destruct (bounded_inv m e B) as [C L].
  unfold Float64.div, Float64.one, SFdiv, SFdiv_core_binary.
  rewrite shifted_mantissa, div_eucl_pair. cbn [Zdigits2].
  change (Zpos (digits2_pos 4503599627370496)) with 53.
  set (d := Zpos (digits2_pos m)) in *.
  assert (Hd : 0 < d) by (unfold d; lia).
  set (e' := Z.min (fexp prec emax (d + e - (53 + -52))) (e - -52)).
  assert (He' : e' = e - 1 \/ e' = e).
  { unfold e', fexp, emin, prec, emax in *. lia. }
  rewrite Bool.xorb_false_r.
  assert (P : Zpos 4503599627370496 = 2 ^ 52) by reflexivity.
  destruct He' as [-> | ->].
  - replace (e - -52 - (e - 1)) with 53 by lia.
    change (0 <=? 53) with true. cbn iota.
    replace (Zpos m * 2 ^ 53) with (Zpos m * 2 ^ 1 * Zpos 4503599627370496)
      by (rewrite P; lia).
    rewrite Z.div_mul, Z.mod_mul by discriminate.
    cbn [new_location]. change (new_location _ 0) with loc_Exact.
    replace e with (e - 1 + 1) at 2 by lia.
    apply binary_round_aux_exact; [lia|].
    now replace (e - 1 + 1) with e by lia.
  - replace (e - -52 - e) with 52 by lia.
    change (0 <=? 52) with true. cbn iota.
    rewrite <- P, Z.div_mul, Z.mod_mul by discriminate.
    change (new_location _ 0) with loc_Exact.
    now apply binary_round_aux_canonical.
Qed.


(** Dividing an [int] by the [int] 1 is converting it to a float. *)
Lemma div_int_by_one (sx : bool) (p : positive) :
  Float64.div (S754_finite sx p 0) (S754_finite false 1 0)
  = binary_round prec emax sx p 0.
Proof.
  unfold Float64.div, SFdiv, SFdiv_core_binary, binary_round.
  rewrite shifted_mantissa, div_eucl_pair, shl_align_spec.
  cbn [Zdigits2 digits2_pos].
  rewrite Z.div_1_r, Z.mod_1_r, Bool.xorb_false_r.
  change (new_location 1 0) with loc_Exact.
  set (d := Zpos (digits2_pos p)).
  assert (Hd : 0 < d) by (unfold d; lia).
  assert (F1 : fexp prec emax (d + 0 - (1 + 0)) = Z.max (d - 54) (-1074)).
  { unfold fexp, emin, prec, emax. lia. }
  assert (F0 : fexp prec emax (d + 0) = Z.max (d - 53) (-1074)).
  { unfold fexp, emin, prec, emax. lia. }
  rewrite F1, F0.
  destruct (Z.ltb_spec (Z.max (d - 53) (-1074)) 0) as [Lt|Ge].
  - (* fewer than 53 digits: both sides align the mantissa on 53 digits *)
    replace (Z.min (Z.max (d - 54) (-1074)) (0 - 0)) with (d - 54) by lia.
    replace (Z.max (d - 53) (-1074)) with (d - 53) by lia.
    replace (0 - 0 - (d - 54)) with (53 - d + 1) by lia.
    replace (0 - (d - 53)) with (53 - d) by lia.
    replace (0 <=? 53 - d + 1) with true by (symmetry; apply Z.leb_le; lia).
    cbn iota.
    remember (Z.to_pos (53 - d)) as j eqn:Ej.
    assert (Hj : Zpos j = 53 - d) by (subst j; rewrite Z2Pos.id; lia).
    rewrite Z.pow_add_r, Z.mul_assoc by lia. rewrite <- Hj, <- Zpos_iter_xO.
    assert (B : bounded prec emax (Pos.iter xO p j) (d - 53) = true).
    { unfold bounded, canonical_mantissa.
      rewrite digits2_pos_iter_xO, Pos2Z.inj_add. fold d. rewrite Hj.
      apply andb_true_iff. split; [apply Z.eqb_eq | apply Z.leb_le].
      - unfold fexp, emin, prec, emax. lia.
      - unfold prec, emax. lia. }
    rewrite (binary_round_aux_canonical sx _ _ B).
    replace (S754_finite sx (Pos.iter xO p j) (d - 53))
      with (S754_finite sx (Pos.iter xO p j) (d - 54 + 1)) by (f_equal; lia).
    apply binary_round_aux_exact; [lia|].
    now replace (d - 54 + 1) with (d - 53) by lia.
  - destruct (Z.eq_dec d 53) as [E53|N53].
    + (* exactly 53 digits: the quotient carries one more bit *)
      rewrite E53. cbn -[binary_round_aux Z.pow Z.mul].
      assert (B : bounded prec emax p 0 = true).
      { unfold bounded, canonical_mantissa. fold d. rewrite E53. reflexivity. }
      rewrite (binary_round_aux_canonical sx _ _ B).
      change (S754_finite sx p 0) with (S754_finite sx p (-1 + 1)).
      apply binary_round_aux_exact; [lia|exact B].
    + (* more digits: both sides round the same mantissa *)
      replace (Z.min (Z.max (d - 54) (-1074)) (0 - 0)) with 0 by lia.
      cbn -[binary_round_aux]. now rewrite Pos.mul_1_r.
Qed.

Lemma int_true_divide_one (v : Z) : int_true_divide v 1 = int_to_float v.
Proof.
  unfold int_true_divide, int_to_float, binary_normalize.
  destruct v as [|p|p]; [reflexivity| |];
    cbn [Z.abs Z.to_pos Z.ltb Z.compare]; now rewrite div_int_by_one.
Qed.


(** Small integers convert exactly. *)
Lemma binary_round_small (sx : bool) (p : positive) :
  Zpos (digits2_pos p) <= 53 ->
  exists m,
    binary_round prec emax sx p 0
      = S754_finite sx m (Zpos (digits2_pos p) - 53) /\
    Zpos m = Zpos p * 2 ^ (53 - Zpos (digits2_pos p)).
Proof.
  intros D. unfold binary_round. rewrite shl_align_spec.
  set (d := Zpos (digits2_pos p)) in *.
  assert (Hd : 0 < d) by (unfold d; lia).
  assert (F0 : fexp prec emax (d + 0) = d - 53).
  { unfold fexp, emin, prec, emax. lia. }
  rewrite F0.
  destruct (Z.ltb_spec (d - 53) 0) as [Lt|Ge].
  - remember (Z.to_pos (0 - (d - 53))) as j eqn:Ej.
    assert (Hj : Zpos j = 53 - d) by (subst j; rewrite Z2Pos.id; lia).
    exists (Pos.iter xO p j). split.
    + apply binary_round_aux_canonical.
      unfold bounded, canonical_mantissa.
      rewrite digits2_pos_iter_xO, Pos2Z.inj_add. fold d. rewrite Hj.
      apply andb_true_iff. split; [apply Z.eqb_eq | apply Z.leb_le].
      * unfold fexp, emin, prec, emax. lia.
      * unfold prec, emax. lia.
    + now rewrite Zpos_iter_xO, Hj.
  - assert (E : d = 53) by lia. exists p. rewrite E. split.
    + apply binary_round_aux_canonical.
      unfold bounded, canonical_mantissa. fold d. rewrite E. reflexivity.
    + simpl. lia.
Qed.

Lemma digits2_pos_le (p : positive) (n : Z) :
  0 <= n -> Zpos p < 2 ^ n -> Zpos (digits2_pos p) <= n.
Proof.
  intros Hn Hp. pose proof (digits2_pos_lower p) as L.
  assert (H : 2 ^ (Zpos (digits2_pos p) - 1) < 2 ^ n) by lia.
  apply Z.pow_lt_mono_r_iff in H; lia.
Qed.

Lemma int_to_float_exact (v : Z) :
  Z.abs v <= 2 ^ 53 ->
  exists f, int_to_float v = Ok f /\ float_eq_int f v = true.
Proof.
  intros A. unfold int_to_float, binary_normalize.
  assert (S : forall sx p, Zpos p <= 2 ^ 53 ->
            exists f, match binary_round prec emax sx p 0 with
                      | S754_infinity _ => Raise OverflowError
                      | f => Ok f
                      end = Ok f /\
                      float_eq_int f (cond_Zopp sx (Zpos p)) = true).
  { intros sx p Hp.
    destruct (Z.eq_dec (Zpos p) (2 ^ 53)) as [E|N].
    - injection E as ->. destruct sx; eexists; split; reflexivity.
    - assert (D : Zpos (digits2_pos p) <= 53) by (apply digits2_pos_le; lia).
      destruct (binary_round_small sx p D) as [m [-> Hm]].
      eexists. split; [reflexivity|].
      unfold float_eq_int.
      set (d := Zpos (digits2_pos p)) in *.
      destruct (Z.leb_spec 0 (d - 53)) as [G|G].
      + assert (H0 : 53 - d = 0) by lia. assert (H1 : d - 53 = 0) by lia.
        rewrite H0 in Hm. rewrite H1.
        rewrite Z.pow_0_r, Z.mul_1_r in *.
        apply Z.eqb_eq. destruct sx; simpl cond_Zopp; lia.
      + replace (- (d - 53)) with (53 - d) by lia.
        apply Z.eqb_eq. destruct sx; simpl cond_Zopp; lia. }
  destruct v as [|p|p].
  - eexists. split; reflexivity.
  - apply (S false p). exact A.
  - apply (S true p). exact A.
Qed.


(** Shifting right divides the mantissa. *)
Lemma shr_m_shr_1 (mrs : shr_record) :
  0 <= shr_m mrs -> shr_m (shr_1 mrs) = shr_m mrs / 2.
Proof.
  destruct mrs as [m r s]. cbn [shr_m]. intros H.
  rewrite <- Z.div2_div.
  destruct m as [|[q|q|]|q]; try reflexivity. lia.
Qed.

Lemma shr_m_iter (k : positive) (mrs : shr_record) :
  0 <= shr_m mrs ->
  shr_m (Pos.iter shr_1 mrs k) = shr_m mrs / 2 ^ Zpos k.
Proof.
  intros H. induction k as [|k IH] using Pos.peano_ind.
  - cbn [Pos.iter]. now apply shr_m_shr_1.
  - rewrite Pos.iter_succ, shr_m_shr_1, IH.
    + rewrite Pos2Z.inj_succ, Z.pow_succ_r by lia.
      rewrite Z.div_div by lia. f_equal. lia.
    + rewrite IH. apply Z.div_pos; lia.
Qed.

Lemma shr_positive (mrs : shr_record) (e n : Z) :
  0 < shr_m mrs ->
  (0 < n -> 2 ^ n <= shr_m mrs) ->
  0 < shr_m (fst (shr mrs e n)) /\ snd (shr mrs e n) = e + Z.max n 0.
Proof.
  intros P H. destruct n as [|k|k]; cbn [shr fst snd].
  - split; [exact P | lia].
  - split; [|lia]. rewrite iter_pos_iter, shr_m_iter by lia.
    apply Z.div_str_pos. split; [lia | apply H; lia].
  - split; [exact P | lia].
Qed.

Lemma round_nearest_even_ge (m : Z) (l : location) :
  m <= round_nearest_even m l.
Proof.
  destruct l as [|[| |]]; cbn [round_nearest_even];
    try destruct (Z.even m); lia.
Qed.

Lemma shr_m_record_of_loc (m : Z) (l : location) :
  shr_m (shr_record_of_loc m l) = m.
Proof. destruct l as [|[| |]]; reflexivity. Qed.

(** Rounding does not produce a zero as long as the first shift leaves a
    digit of the mantissa. *)
Lemma binary_round_aux_not_zero (sx : bool) (m : positive) (e : Z)
    (l : location) :
  fexp prec emax (Zpos (digits2_pos m) + e) - e < Zpos (digits2_pos m) ->
  Float64.is_zero (binary_round_aux prec emax sx (Zpos m) e l) = false.
Proof.
  intros H. unfold binary_round_aux, shr_fexp. cbn [Zdigits2].
  set (n1 := fexp prec emax (Zpos (digits2_pos m) + e) - e) in *.
  destruct (shr_positive (shr_record_of_loc (Zpos m) l) e n1) as [P1 E1].
  { rewrite shr_m_record_of_loc. lia. }
  { rewrite shr_m_record_of_loc. intros Hn.
    pose proof (digits2_pos_lower m) as L.
    assert (2 ^ n1 <= 2 ^ (Zpos (digits2_pos m) - 1))
      by (apply Z.pow_le_mono_r; lia).
    lia. }
  destruct (shr (shr_record_of_loc (Zpos m) l) e n1) as [mrs' e'].
  cbn [fst snd] in P1, E1.
  pose proof (round_nearest_even_ge (shr_m mrs') (loc_of_shr_record mrs')) as R.
  destruct (round_nearest_even (shr_m mrs') (loc_of_shr_record mrs'))
    as [|m1|m1]; try lia.
  cbn [Zdigits2].
  set (n2 := fexp prec emax (Zpos (digits2_pos m1) + e') - e').
  destruct (shr_positive (shr_record_of_loc (Zpos m1) loc_Exact) e' n2)
    as [P2 E2].
  { cbn [shr_record_of_loc shr_m]. lia. }
  { cbn [shr_record_of_loc shr_m]. intros Hn.
    pose proof (digits2_pos_lower m1) as L.
    assert (2 ^ n2 <= 2 ^ (Zpos (digits2_pos m1) - 1)).
    { apply Z.pow_le_mono_r; [lia|].
      unfold n2, n1, fexp, emin, prec, emax in *. lia. }
    lia. }
  destruct (shr (shr_record_of_loc (Zpos m1) loc_Exact) e' n2) as [mrs'' e''].
  cbn [fst snd] in P2, E2.
  destruct (shr_m mrs'') as [|m2|m2]; try lia.
  destruct (e'' <=? emax - prec); reflexivity.
Qed.

Lemma int_to_float_not_zero (p : positive) (f : spec_float) :
  int_to_float (Zpos p) = Ok f -> Float64.is_zero f = false.
Proof.
  unfold int_to_float, binary_normalize, binary_round.
  rewrite shl_align_spec.
  set (d := Zpos (digits2_pos p)).
  assert (Hd : 0 < d) by (unfold d; lia).
  assert (F0 : fexp prec emax (d + 0) = Z.max (d - 53) (-1074)).
  { unfold fexp, emin, prec, emax. lia. }
  rewrite F0.
  assert (NZ : forall mz ez,
            fexp prec emax (Zpos (digits2_pos mz) + ez) - ez
              < Zpos (digits2_pos mz) ->
            match binary_round_aux prec emax false (Zpos mz) ez loc_Exact with
            | S754_infinity _ => Raise OverflowError
            | g => Ok g
            end = Ok f -> Float64.is_zero f = false).
  { intros mz ez Hz E.
    pose proof (binary_round_aux_not_zero false mz ez loc_Exact Hz) as Z.
    destruct (binary_round_aux prec emax false (Zpos mz) ez loc_Exact);
      try discriminate; injection E as <-; exact Z. }
  destruct (Z.ltb_spec (Z.max (d - 53) (-1074)) 0) as [Lt|Ge]; apply NZ.
  - rewrite digits2_pos_iter_xO, Pos2Z.inj_add. fold d.
    rewrite Z2Pos.id by lia. unfold fexp, emin, prec, emax. lia.
  - fold d. unfold fexp, emin, prec, emax. lia.
Qed.

End Rounding.

(** ** Floats and the operators *)

Lemma add_zero_l (f : spec_float) :
  Float64.add (S754_zero false) f =
  match f with S754_zero _ => S754_zero false | _ => f end.
Proof. destruct f as [[|]|[|]| |s m e]; reflexivity. Qed.

Lemma float_eqb_refl (f : spec_float) :
  Float64.is_nan f = false -> Float64.eqb f f = true.
Proof.
  destruct f as [s|s| |s m e]; intros N; try discriminate N.
  - reflexivity.
  - destruct s; reflexivity.
  - unfold Float64.eqb, SFeqb, SFcompare.
    rewrite Z.compare_refl, Pos.compare_cont_refl. destruct s; reflexivity.
Qed.

Lemma div_by_one (f : spec_float) :
  Float64.valid f = true -> Float64.div f Float64.one = f.
Proof.
  destruct f as [s|s| |s m e]; intros V.
  - destruct s; reflexivity.
  - destruct s; reflexivity.
  - reflexivity.
  - now apply div_finite_by_one.
Qed.

Lemma sum_from_single (v : number) :
  sum_from (PyInt 0) [v] =
  match v with
  | PyInt z => Ok (PyInt z)
  | PyFloat f => Ok (PyFloat (Float64.add (S754_zero false) f))
  end.
Proof. destruct v; reflexivity. Qed.

Lemma py_truediv_int_one (z : Z) :
  py_truediv (PyInt z) (PyInt 1) =
  result_bind (int_to_float z) (fun f => Ok (PyFloat f)).
Proof. cbn [py_truediv]. now rewrite int_true_divide_one. Qed.

Lemma py_truediv_float_one (f : spec_float) :
  Float64.valid f = true ->
  py_truediv (PyFloat f) (PyInt 1) = Ok (PyFloat f).
Proof.
  intros V. cbn [py_truediv].
  change (int_to_float 1) with (Ok Float64.one). cbn [result_bind].
  unfold float_true_divide. cbn [Float64.is_zero Float64.one result_bind].
  now rewrite div_by_one.
Qed.

Lemma add_zero_l_valid (f : spec_float) :
  Float64.valid f = true -> Float64.valid (Float64.add (S754_zero false) f) = true.
Proof. rewrite add_zero_l. destruct f; intros V; try exact V; reflexivity. Qed.

Lemma add_zero_l_eqb (f : spec_float) :
  Float64.is_nan f = false ->
  Float64.eqb (Float64.add (S754_zero false) f) f = true.
Proof.
  rewrite add_zero_l. destruct f as [s|s| |s m e]; intros N.
  - reflexivity.
  - now apply float_eqb_refl.
  - discriminate N.
  - now apply float_eqb_refl.
Qed.

Lemma py_add_raises (a b : number) (e : exn) :
  py_add a b = Raise e -> e = OverflowError.
Proof.
  destruct a as [x|f], b as [y|g]; cbn [py_add]; try discriminate;
    unfold int_to_float;
    match goal with
    | |- context [binary_normalize ?p ?q ?z ?k ?s] =>
        destruct (binary_normalize p q z k s)
    end; cbn [result_bind]; congruence.
Qed.

Lemma sum_from_raises (xs : list number) :
  forall acc e, sum_from acc xs = Raise e -> e = OverflowError.
Proof.
  induction xs as [|x xs IH]; intros acc e; cbn [sum_from].
  - discriminate.
  - destruct (py_add acc x) as [acc'|e'] eqn:A; cbn [result_bind].
    + apply IH.
    + intros [= <-]. now apply (py_add_raises acc x).
Qed.

Lemma py_truediv_len_raises (t : number) (n : nat) (e : exn) :
  py_truediv t (PyInt (Z.of_nat (S n))) = Raise e -> e = OverflowError.
Proof.
  cbn [Z.of_nat]. set (q := Pos.of_succ_nat n).
  destruct t as [x|f]; cbn [py_truediv].
  - unfold int_true_divide.
    destruct x; [discriminate| |];
      match goal with
      | |- context [Float64.div ?a ?b] => destruct (Float64.div a b)
      end; cbn [result_bind]; congruence.
  - destruct (int_to_float (Zpos q)) as [g|e'] eqn:G; cbn [result_bind].
    + unfold float_true_divide.
      rewrite (int_to_float_not_zero _ _ G). discriminate.
    + unfold int_to_float in G.
      destruct (binary_normalize _ _ _ 0 false); congruence.
Qed.

Lemma returns_or_overflows {A} (r : result A) :
  (forall e, r = Raise e -> e = OverflowError) ->
  (exists v, r = Ok v) \/ r = Raise OverflowError.
Proof.
  intros H. destruct r as [v|e].
  - left. now exists v.
  - right. now rewrite (H e eq_refl).
Qed.

Lemma sum_from_all_ints (xs : list number) :
  forall z, forallb is_int xs = true ->
            exists z', sum_from (PyInt z) xs = Ok (PyInt z').
Proof.
  induction xs as [|x xs IH]; intros z H; cbn [sum_from].
  - now exists z.
  - cbn [forallb] in H. apply andb_true_iff in H. destruct H as [X H].
    destruct x as [y|f]; [|discriminate X]. cbn [py_add result_bind].
    now apply IH.
Qed.

Lemma sum_from_all_floats (xs : list number) :
  forall f, forallb is_float xs = true ->
            exists g, sum_from (PyFloat f) xs = Ok (PyFloat g).
Proof.
  induction xs as [|x xs IH]; intros f H; cbn [sum_from].
  - now exists f.
  - cbn [forallb] in H. apply andb_true_iff in H. destruct H as [X H].
    destruct x as [y|g]; [discriminate X|]. cbn [py_add result_bind].
    now apply IH.
Qed.

Lemma sum_one_kind (xs : list number) :
  one_kind xs = true -> exists v, sum_from (PyInt 0) xs = Ok v.
Proof.
  unfold one_kind. intros H. apply orb_true_iff in H. destruct H as [H|H].
  - destruct (sum_from_all_ints xs 0 H) as [z E]. eauto.
  - destruct xs as [|x xs]; [now exists (PyInt 0)|].
    cbn [forallb] in H. apply andb_true_iff in H. destruct H as [X H].
    destruct x as [y|g]; [discriminate X|]. cbn [sum_from py_add].
    change (int_to_float 0) with (Ok (S754_zero false)). cbn [result_bind].
    destruct (sum_from_all_floats xs (Float64.add (S754_zero false) g) H)
      as [r E]. eauto.
Qed.

(** * The claims *)

(** C1: on an empty input sequence [calculate_average] returns the [int] zero;
    it does not fail with a division by zero, and the store is as before. *)
Theorem average_empty_returns_zero (h : heap) (items : ref) :
  h items = [] -> calculate_average items h = (Ok (PyInt 0), h).
Proof.
  intros E. rewrite calculate_average_run, E. reflexivity.
Qed.

Lemma average_empty_returns_zero_witness :
  (fun _ : ref => @nil number) 7%nat = [] /\
  calculate_average 7%nat (fun _ => []) = (Ok (PyInt 0), fun _ => []).
Proof.
  split; [reflexivity|].
  apply (average_empty_returns_zero (fun _ => []) 7%nat). reflexivity.
Defined.

(** C2: on a sequence with at least one item, the outcome of
    [calculate_average] is the outcome of [calculate_total] divided, with the
    true division of the language, by the number of items; a failure of the
    sum is the failure of the average. *)
Theorem average_is_total_over_len (h : heap) (items : ref) :
  (0 < length (h items))%nat ->
  fst (calculate_average items h) =
  result_bind (fst (calculate_total items h))
    (fun t => py_truediv t (PyInt (Z.of_nat (length (h items))))).
Proof.
  intros L. rewrite calculate_average_run, calculate_total_run. simpl.
  destruct (h items); [inversion L | reflexivity].
Qed.

Lemma average_is_total_over_len_witness :
  let h : heap := fun _ => [PyInt 3; PyInt 4] in
  (0 < length (h 0%nat))%nat /\
  fst (calculate_average 0%nat h) =
  result_bind (fst (calculate_total 0%nat h))
    (fun t => py_truediv t (PyInt (Z.of_nat (length (h 0%nat))))).
Proof.
  intros h. split; [simpl; lia|].
  apply (average_is_total_over_len h 0%nat). simpl; lia.
Defined.

(** C3, as stated, fails on floats: [calculate_total] of the two floats 2^53
    and 1.0, both finite, is the float 2^53 and not their sum 2^53 + 1. *)
Lemma total_of_floats_is_rounded :
  forallb finite_number two_pow_53_and_one = true /\
  call calculate_total two_pow_53_and_one =
    Ok (PyFloat (S754_finite false 4503599627370496 1)) /\
  total_is_math_sum two_pow_53_and_one = false.
Proof.
  repeat split; vm_compute; reflexivity.
Qed.

(** C3, amended: on every finite sequence of [int]s, [calculate_total]
    returns the [int] that is the mathematical sum of the items. *)
Theorem total_of_ints_is_math_sum (h : heap) (items : ref) (zs : list Z) :
  h items = map PyInt zs ->
  fst (calculate_total items h) = Ok (PyInt (Zsum zs)) /\
  total_is_math_sum (map PyInt zs) = true.
Proof.
  intros E. split.
  - rewrite calculate_total_run, E. simpl. now rewrite sum_from_ints.
  - unfold total_is_math_sum, call. rewrite calculate_total_run. simpl.
    rewrite sum_from_ints. simpl.
    destruct (math_sum_ints zs) as [s [-> Hs]].
    apply Qeq_bool_iff. symmetry. exact Hs.
Qed.

Lemma total_of_ints_is_math_sum_witness :
  let h : heap := fun _ => map PyInt [3; -8; 12] in
  h 1%nat = map PyInt [3; -8; 12] /\
  fst (calculate_total 1%nat h) = Ok (PyInt 7) /\
  total_is_math_sum (map PyInt [3; -8; 12]) = true.
Proof.
  intros h. split; [reflexivity|].
  apply (total_of_ints_is_math_sum h 1%nat [3; -8; 12]). reflexivity.
Defined.

(** C4: on the empty sequence [calculate_total] returns zero, the additive
    identity, and [calculate_average] returns zero as well. *)
Theorem empty_total_and_average (h : heap) (items : ref) :
  h items = [] ->
  fst (calculate_total items h) = Ok (PyInt 0) /\
  fst (calculate_average items h) = Ok (PyInt 0).
Proof.
  intros E. rewrite calculate_total_run, calculate_average_run, E.
  split; reflexivity.
Qed.

Lemma empty_total_and_average_witness :
  let h : heap := fun r => if Nat.eqb r 2 then [] else [PyInt 1] in
  h 2%nat = [] /\
  fst (calculate_total 2%nat h) = Ok (PyInt 0) /\
  fst (calculate_average 2%nat h) = Ok (PyInt 0).
Proof.
  intros h. split; [reflexivity|].
  apply (empty_total_and_average h 2%nat). reflexivity.
Defined.

(** C5, as stated, fails on large [int]s: [calculate_average] of the
    one-item sequence holding 2^53 + 1 returns the float 2^53, which does not
    compare equal to 2^53 + 1. *)
Lemma average_of_large_int_is_rounded :
  comparable two_pow_53_plus_one = true /\
  call calculate_average [two_pow_53_plus_one] =
    Ok (PyFloat (S754_finite false 4503599627370496 1)) /\
  returns_eq (call calculate_average [two_pow_53_plus_one])
             two_pow_53_plus_one = false.
Proof.
  repeat split; vm_compute; reflexivity.
Qed.

(** C5, amended: for every number v other than a NaN, [calculate_total] of
    the one-item sequence [v] compares equal to v; [calculate_average] of it
    compares equal to v when v is a float or an [int] of magnitude at most
    2^53; on any [int] v it is the conversion of v to a float, the nearest
    float or an [OverflowError]. *)
Theorem single_item (h : heap) (items : ref) (v : number) :
  h items = [v] ->
  comparable v = true ->
  returns_eq (fst (calculate_total items h)) v = true /\
  (exact_in_float v = true ->
   returns_eq (fst (calculate_average items h)) v = true) /\
  (forall z, v = PyInt z ->
   fst (calculate_average items h) =
   result_bind (int_to_float z) (fun f => Ok (PyFloat f))).
Proof.
  intros E C. rewrite calculate_total_run, calculate_average_run, E.
  cbn [fst length Z.of_nat Pos.of_succ_nat]. rewrite sum_from_single.
  destruct v as [z|f]; cbn [result_bind returns_eq py_eq].
  - split; [apply Z.eqb_refl|]. split.
    + intros X. apply Z.leb_le in X. rewrite py_truediv_int_one.
      destruct (int_to_float_exact z X) as [f [-> Hf]]. exact Hf.
    + intros z' [= <-]. apply py_truediv_int_one.
  - cbn [comparable] in C. apply andb_true_iff in C. destruct C as [V N].
    apply negb_true_iff in N.
    split; [now apply add_zero_l_eqb|]. split.
    + intros _. rewrite py_truediv_float_one by now apply add_zero_l_valid.
      cbn [returns_eq py_eq]. now apply add_zero_l_eqb.
    + intros z' [=].
Qed.


Lemma single_item_witness :
  let h : heap := fun _ => [PyInt (-7)] in
  returns_eq (fst (calculate_total 4%nat h)) (PyInt (-7)) = true /\
  returns_eq (fst (calculate_average 4%nat h)) (PyInt (-7)) = true.
Proof.
  intros h.
  destruct (single_item h 4%nat (PyInt (-7)) eq_refl eq_refl) as [T [A _]].
  split; [exact T|]. apply A. reflexivity.
Defined.

(** C6: the concrete scenarios of the specification:
    total([1, 2, 3, 4]) == 10, average([1, 2, 3, 4]) == 2.5,
    total([-5, 5]) == 0 and average([10]) == 10. *)
Theorem concrete_scenarios :
  returns_eq (call calculate_total (map PyInt [1; 2; 3; 4])) (PyInt 10) = true /\
  returns_eq (call calculate_average (map PyInt [1; 2; 3; 4]))
             (PyFloat Float64.two_and_a_half) = true /\
  returns_eq (call calculate_total (map PyInt [-5; 5])) (PyInt 0) = true /\
  returns_eq (call calculate_average (map PyInt [10])) (PyInt 10) = true.
Proof.
  repeat split; vm_compute; reflexivity.
Qed.

(** C7: for every finite sequence of [int]s and every permutation of it,
    [calculate_total] returns the same result on both. *)
Theorem total_of_ints_permutation
    (h h' : heap) (items items' : ref) (xs ys : list Z) :
  h items = map PyInt xs ->
  h' items' = map PyInt ys ->
  Permutation xs ys ->
  fst (calculate_total items h) = fst (calculate_total items' h').
Proof.
  intros E E' P. rewrite !calculate_total_run, E, E'. simpl.
  rewrite !sum_from_ints. now rewrite (Zsum_Permutation xs ys P).
Qed.

Lemma total_of_ints_permutation_witness :
  let h : heap := fun _ => map PyInt [1; 2; 3] in
  let h' : heap := fun _ => map PyInt [2; 1; 3] in
  fst (calculate_total 0%nat h) = fst (calculate_total 5%nat h').
Proof.
  intros h h'.
  apply (total_of_ints_permutation h h' 0%nat 5%nat [1; 2; 3] [2; 1; 3]).
  - reflexivity.
  - reflexivity.
  - apply perm_swap.
Defined.

(** C8: both functions are deterministic and pure: two calls on equal input
    sequences, whatever the store and the reference, give equal results; and
    the result of [calculate_average] is determined by the result of
    [calculate_total] and the number of items. *)
Theorem deterministic_and_pure (h1 h2 : heap) (r1 r2 : ref) :
  (h1 r1 = h2 r2 ->
   fst (calculate_total r1 h1) = fst (calculate_total r2 h2) /\
   fst (calculate_average r1 h1) = fst (calculate_average r2 h2)) /\
  (fst (calculate_total r1 h1) = fst (calculate_total r2 h2) ->
   length (h1 r1) = length (h2 r2) ->
   fst (calculate_average r1 h1) = fst (calculate_average r2 h2)).
Proof.
  rewrite !calculate_total_run, !calculate_average_run. simpl. split.
  - intros ->. split; reflexivity.
  - intros T L.
    destruct (h1 r1) as [|x xs], (h2 r2) as [|y ys]; try discriminate L.
    + reflexivity.
    + rewrite T, L. reflexivity.
Qed.

Lemma deterministic_and_pure_witness :
  let h1 : heap := fun _ => [PyInt 1; PyInt 5] in
  let h2 : heap := fun r => if Nat.eqb r 3 then [PyInt 1; PyInt 5] else [] in
  h1 0%nat = h2 3%nat /\
  fst (calculate_total 0%nat h1) = fst (calculate_total 3%nat h2) /\
  length (h1 0%nat) = length (h2 3%nat) /\
  fst (calculate_average 0%nat h1) = fst (calculate_average 3%nat h2).
Proof.
  intros h1 h2.
  assert (E : h1 0%nat = h2 3%nat) by reflexivity.
  assert (L : length (h1 0%nat) = length (h2 3%nat)) by reflexivity.
  destruct (deterministic_and_pure h1 h2 0%nat 3%nat) as [D A].
  destruct (D E) as [T _].
  split; [exact E|]. split; [exact T|]. split; [exact L|].
  exact (A T L).
Defined.

(** C9: neither function modifies its input: after a call the store, and
    with it the input sequence, is what it was before the call. *)
Theorem input_unchanged (h : heap) (items : ref) :
  snd (calculate_total items h) = h /\
  snd (calculate_average items h) = h /\
  snd (calculate_total items h) items = h items /\
  snd (calculate_average items h) items = h items.
Proof.
  rewrite calculate_total_run, calculate_average_run. simpl.
  repeat split; reflexivity.
Qed.

(** C10, as stated, fails on [int]s beyond the range of a float:
    [calculate_average] of the one-item sequence holding 10^400, and
    [calculate_total] of the float 1.0 followed by 10^400, raise
    [OverflowError]. *)
Lemma overflow_on_huge_int :
  forallb finite_number [ten_pow_400] = true /\
  call calculate_average [ten_pow_400] = Raise OverflowError /\
  forallb finite_number [PyFloat Float64.one; ten_pow_400] = true /\
  call calculate_total [PyFloat Float64.one; ten_pow_400] = Raise OverflowError.
Proof.
  repeat split; vm_compute; reflexivity.
Qed.

(** C10, amended: the division inside [calculate_average] is guarded, so a
    division by zero is unreachable: on every sequence of numbers each of the
    two functions either returns a number or raises [OverflowError], never
    [ZeroDivisionError]; and [calculate_total] returns a number on every
    sequence of [int]s and on every sequence of floats. *)
Theorem division_is_guarded (h : heap) (items : ref) :
  ((exists v, fst (calculate_total items h) = Ok v) \/
   fst (calculate_total items h) = Raise OverflowError) /\
  ((exists v, fst (calculate_average items h) = Ok v) \/
   fst (calculate_average items h) = Raise OverflowError) /\
  (one_kind (h items) = true ->
   exists v, fst (calculate_total items h) = Ok v).
Proof.
  rewrite calculate_total_run, calculate_average_run. cbn [fst].
  split; [|split].
  - apply returns_or_overflows. apply sum_from_raises.
  - apply returns_or_overflows. intros e.
    destruct (h items) as [|x xs]; [discriminate|].
    destruct (sum_from (PyInt 0) (x :: xs)) as [t|e'] eqn:S;
      cbn [result_bind length].
    + apply py_truediv_len_raises.
    + intros [= <-]. now apply (sum_from_raises _ _ _ S).
  - apply sum_one_kind.
Qed.

Lemma division_is_guarded_witness :
  let h : heap := fun _ => [PyFloat Float64.one; PyFloat Float64.two_and_a_half] in
  one_kind (h 0%nat) = true /\
  exists v, fst (calculate_total 0%nat h) = Ok v.
Proof.
  intros h. split; [reflexivity|].
  apply (proj2 (proj2 (division_is_guarded h 0%nat))). reflexivity.
Defined.

(** * Further properties of the two functions *)

(** ** More on rounding: range, exact quotients, signs *)

Section Quotients.

Local Abbreviation prec := Float64.prec.
Local Abbreviation emax := Float64.emax.

Lemma digits2_pos_upper (m : positive) :
  Zpos m < 2 ^ Zpos (digits2_pos m).
Proof.
  induction m as [m IH|m IH|]; cbn [digits2_pos].
  - rewrite Pos2Z.inj_succ, (Pos2Z.inj_xI m), Z.pow_succ_r by lia. lia.
  - rewrite Pos2Z.inj_succ, (Pos2Z.inj_xO m), Z.pow_succ_r by lia. lia.
  - simpl. lia.
Qed.

Lemma Zdigits2_nonneg (m : Z) : 0 <= Zdigits2 m.
Proof. destruct m; simpl; lia. Qed.

Lemma Zdigits2_upper (m : Z) : 0 <= m -> m < 2 ^ Zdigits2 m.
Proof.
  destruct m as [|p|p]; intros H; [simpl; lia| |lia].
  apply digits2_pos_upper.
Qed.

Lemma Zdigits2_le (m n : Z) : 0 <= m -> 0 <= n -> m < 2 ^ n -> Zdigits2 m <= n.
Proof.
  destruct m as [|p|p]; intros H Hn L; [simpl; lia| |lia].
  now apply digits2_pos_le.
Qed.

Lemma shr_m_shr (mrs : shr_record) (e n : Z) :
  0 <= shr_m mrs ->
  shr_m (fst (shr mrs e n)) = shr_m mrs / 2 ^ Z.max n 0 /\
  snd (shr mrs e n) = e + Z.max n 0.
Proof.
  intros H. destruct n as [|k|k]; cbn [shr fst snd].
  - change (Z.max 0 0) with 0. rewrite Z.pow_0_r, Z.div_1_r. split; lia.
  - rewrite iter_pos_iter, shr_m_iter by exact H.
    replace (Z.max (Zpos k) 0) with (Zpos k) by lia. split; reflexivity.
  - replace (Z.max (Zneg k) 0) with 0 by lia.
    rewrite Z.pow_0_r, Z.div_1_r. split; lia.
Qed.

Lemma round_nearest_even_le (m : Z) (l : location) :
  round_nearest_even m l <= m + 1.
Proof.
  destruct l as [|[| |]]; cbn [round_nearest_even];
    try destruct (Z.even m); lia.
Qed.

Lemma shifted_below (m d k : Z) :
  0 <= m < 2 ^ d -> 0 <= d -> 0 <= k -> m / 2 ^ k < 2 ^ Z.max (d - k) 0.
Proof.
  intros [M0 M1] D K.
  assert (P : 0 < 2 ^ k) by (apply Z.pow_pos_nonneg; lia).
  destruct (Z.le_gt_cases k d) as [L|G].
  - replace (Z.max (d - k) 0) with (d - k) by lia.
    apply Z.div_lt_upper_bound; [exact P|].
    rewrite <- Z.pow_add_r by lia. now replace (k + (d - k)) with d by lia.
  - replace (Z.max (d - k) 0) with 0 by lia.
    assert (2 ^ d <= 2 ^ k) by (apply Z.pow_le_mono_r; lia).
    rewrite Z.div_small by lia. simpl. lia.
Qed.

(** Rounding a mantissa below 2^1023 does not overflow. *)
Lemma binary_round_aux_in_range (sx : bool) (m e : Z) (l : location) :
  0 <= m -> e <= 971 -> Zdigits2 m + e <= 1023 ->
  Float64.is_finite (binary_round_aux prec emax sx m e l) = true.
Proof.
  intros M E D. unfold binary_round_aux, shr_fexp.
  set (d := Zdigits2 m) in *.
  assert (D0 : 0 <= d) by apply Zdigits2_nonneg.
  set (n1 := fexp prec emax (d + e) - e).
  destruct (shr_m_shr (shr_record_of_loc m l) e n1) as [S1 E1].
  { now rewrite shr_m_record_of_loc. }
  rewrite shr_m_record_of_loc in S1.
  destruct (shr (shr_record_of_loc m l) e n1) as [mrs' e'].
  cbn [fst snd] in S1, E1.
  pose proof (round_nearest_even_ge (shr_m mrs') (loc_of_shr_record mrs')) as R0.
  pose proof (round_nearest_even_le (shr_m mrs') (loc_of_shr_record mrs')) as R1.
  set (m1 := round_nearest_even (shr_m mrs') (loc_of_shr_record mrs')) in *.
  assert (K : 0 <= Z.max n1 0) by lia.
  assert (Q0 : 0 <= shr_m mrs').
  { rewrite S1. apply Z.div_pos; [exact M|]. apply Z.pow_pos_nonneg; lia. }
  assert (Q1 : shr_m mrs' < 2 ^ Z.max (d - Z.max n1 0) 0).
  { rewrite S1. apply shifted_below; [|exact D0|exact K].
    split; [exact M|]. now apply Zdigits2_upper. }
  assert (D1 : Zdigits2 m1 <= Z.max (d - Z.max n1 0) 0 + 1).
  { apply Zdigits2_le; [lia|lia|].
    rewrite Z.pow_add_r by lia. simpl (2 ^ 1). lia. }
  set (n2 := fexp prec emax (Zdigits2 m1 + e') - e').
  destruct (shr_m_shr (shr_record_of_loc m1 loc_Exact) e' n2) as [S2 E2].
  { cbn [shr_record_of_loc shr_m]. lia. }
  cbn [shr_record_of_loc shr_m] in S2.
  change (shr_record_of_loc m1 loc_Exact)
    with (Build_shr_record m1 false false) in *.
  destruct (shr (Build_shr_record m1 false false) e' n2) as [mrs'' e''].
  cbn [fst snd] in S2, E2.
  assert (Q2 : 0 <= shr_m mrs'').
  { rewrite S2. apply Z.div_pos; [lia|]. apply Z.pow_pos_nonneg; lia. }
  destruct (shr_m mrs'') as [|m2|m2]; [reflexivity| |lia].
  assert (F : e'' <= 971).
  { pose proof (Zdigits2_nonneg m1).
    unfold n2, n1, fexp, emin, prec, emax in *. lia. }
  apply Z.leb_le in F. change (emax - prec) with 971. now rewrite F.
Qed.

(** The quotient of an [int] below 2^1023 by a positive [int] is a finite
    float. *)
Lemma div_ints_in_range (sa sb : bool) (a b : positive) :
  Zpos a < 2 ^ 1023 ->
  Float64.is_finite
    (Float64.div (S754_finite sa a 0) (S754_finite sb b 0)) = true.
Proof.
  intros A. unfold Float64.div, SFdiv, SFdiv_core_binary.
  rewrite shifted_mantissa, div_eucl_pair. cbn [Zdigits2].
  set (d1 := Zpos (digits2_pos a)). set (d2 := Zpos (digits2_pos b)).
  assert (H1 : d1 <= 1023) by (apply digits2_pos_le; [lia|exact A]).
  assert (H2 : 0 < d2) by (unfold d2; lia).
  assert (H0 : 0 < d1) by (unfold d1; lia).
  set (e' := Z.min (fexp prec emax (d1 + 0 - (d2 + 0))) (0 - 0)).
  assert (E : e' <= 0) by (unfold e'; lia).
  replace (0 - 0 - e') with (- e') by lia.
  replace (0 <=? - e') with true by (symmetry; apply Z.leb_le; lia).
  assert (P : 0 < 2 ^ (- e')) by (apply Z.pow_pos_nonneg; lia).
  assert (Q0 : 0 <= Zpos a * 2 ^ (- e') / Zpos b) by (apply Z.div_pos; lia).
  apply binary_round_aux_in_range; [exact Q0|lia|].
  assert (Zdigits2 (Zpos a * 2 ^ (- e') / Zpos b) <= d1 + - e'); [|lia].
  apply Zdigits2_le; [exact Q0|lia|].
  apply Z.le_lt_trans with (Zpos a * 2 ^ (- e')).
  - apply Z.div_le_upper_bound; [lia|]. nia.
  - rewrite Z.pow_add_r by lia.
    pose proof (digits2_pos_upper a) as U. fold d1 in U. nia.
Qed.

Lemma int_true_divide_in_range (a : Z) (b : positive) :
  Z.abs a < 2 ^ 1023 ->
  exists f, int_true_divide a (Zpos b) = Ok f /\ Float64.is_finite f = true.
Proof.
  intros A. unfold int_true_divide.
  destruct a as [|p|p].
  - eexists. split; reflexivity.
  - pose proof (div_ints_in_range (Zpos p <? 0) (Zpos b <? 0)
                  (Z.to_pos (Z.abs (Zpos p))) (Z.to_pos (Z.abs (Zpos b))) A) as F.
    destruct (Float64.div _ _) as [s|s| |s m e]; try discriminate F;
      eexists; split; reflexivity.
  - pose proof (div_ints_in_range (Zneg p <? 0) (Zpos b <? 0)
                  (Z.to_pos (Z.abs (Zneg p))) (Z.to_pos (Z.abs (Zpos b))) A) as F.
    destruct (Float64.div _ _) as [s|s| |s m e]; try discriminate F;
      eexists; split; reflexivity.
Qed.

(** Trailing zero bits of an exact mantissa are shifted out without trace. *)
Lemma shr_fexp_shifted (m : positive) (e t : Z) :
  0 <= t ->
  e <= fexp prec emax (Zpos (digits2_pos m) + e) ->
  shr_fexp prec emax (Zpos m * 2 ^ t) (e - t) loc_Exact
  = shr_fexp prec emax (Zpos m) e loc_Exact.
Proof.
  intros T N. destruct t as [|k|k]; [| |lia].
  - now rewrite Z.pow_0_r, Z.mul_1_r, Z.sub_0_r.
  - unfold shr_fexp. rewrite <- Zpos_iter_xO. cbn [Zdigits2].
    rewrite digits2_pos_iter_xO, Pos2Z.inj_add.
    set (d := Zpos (digits2_pos m)) in *.
    replace (d + Zpos k + (e - Zpos k)) with (d + e) by lia.
    set (c := fexp prec emax (d + e)) in *.
    cbn [shr_record_of_loc].
    destruct (Z.eq_dec c e) as [Ce|Ce].
    + rewrite Ce, Z.sub_diag.
      replace (e - (e - Zpos k)) with (Zpos k) by lia.
      cbn [shr]. rewrite iter_pos_iter, iter_shr_1_exact.
      f_equal. lia.
    + remember (Z.to_pos (c - e)) as n eqn:En.
      assert (Hn : c - e = Zpos n) by (subst n; rewrite Z2Pos.id; lia).
      replace (c - (e - Zpos k)) with (Zpos (n + k)) by lia.
      rewrite Hn. cbn [shr].
      rewrite !iter_pos_iter, Pos.iter_add, iter_shr_1_exact.
      f_equal. lia.
Qed.

Lemma binary_round_aux_shift_exact (sx : bool) (m : positive) (e t : Z) :
  0 <= t ->
  e <= fexp prec emax (Zpos (digits2_pos m) + e) ->
  binary_round_aux prec emax sx (Zpos m * 2 ^ t) (e - t) loc_Exact
  = binary_round_aux prec emax sx (Zpos m) e loc_Exact.
Proof.
  intros T N. unfold binary_round_aux. now rewrite shr_fexp_shifted.
Qed.

Lemma new_location_zero (n : Z) : new_location n 0 = loc_Exact.
Proof. unfold new_location. destruct (Z.even n); reflexivity. Qed.

(** The conversion of an [int] rounds its mantissa aligned on 53 bits. *)
Lemma binary_round_aligned (sx : bool) (p : positive) :
  let j := Z.max 0 (- fexp prec emax (Zpos (digits2_pos p))) in
  binary_round prec emax sx p 0
  = binary_round_aux prec emax sx (Zpos p * 2 ^ j) (- j) loc_Exact.
Proof.
  intros j. unfold binary_round. rewrite shl_align_spec.
  set (d := Zpos (digits2_pos p)) in *.
  replace (d + 0) with d by lia.
  destruct (Z.ltb_spec (fexp prec emax d) 0) as [Lt|Ge].
  - replace j with (- fexp prec emax d) by lia.
    rewrite Zpos_iter_xO, Z2Pos.id by lia.
    replace (0 - fexp prec emax d) with (- fexp prec emax d) by lia.
    now rewrite Z.opp_involutive.
  - replace j with 0 by lia. now rewrite Z.pow_0_r, Z.mul_1_r.
Qed.

Lemma shifted_positive (q : positive) (j : Z) :
  0 <= j ->
  exists m, Zpos m = Zpos q * 2 ^ j /\
            Zpos (digits2_pos m) = Zpos (digits2_pos q) + j.
Proof.
  intros J. destruct j as [|k|k]; [| |lia].
  - exists q. split; [now rewrite Z.pow_0_r, Z.mul_1_r | lia].
  - exists (Pos.iter xO q k). split; [apply Zpos_iter_xO|].
    now rewrite digits2_pos_iter_xO, Pos2Z.inj_add.
Qed.

(** Dividing an exact multiple gives the conversion of the quotient. *)
Lemma div_exact_multiple (sx : bool) (q b : positive) :
  Float64.div (S754_finite sx (q * b) 0) (S754_finite false b 0)
  = binary_round prec emax sx q 0.
Proof.
  rewrite binary_round_aligned.
  set (j := Z.max 0 (- fexp prec emax (Zpos (digits2_pos q)))).
  unfold Float64.div, SFdiv, SFdiv_core_binary.
  rewrite shifted_mantissa, div_eucl_pair. cbn [Zdigits2].
  set (d1 := Zpos (digits2_pos (q * b))). set (d2 := Zpos (digits2_pos b)).
  set (dq := Zpos (digits2_pos q)) in *.
  assert (Hq : 0 < dq) by (unfold dq; lia).
  assert (J0 : 0 <= j) by (unfold j; lia).
  assert (Hd : d1 - d2 <= dq).
  { pose proof (digits2_pos_lower (q * b)) as L. fold d1 in L.
    pose proof (digits2_pos_upper q) as Uq. fold dq in Uq.
    pose proof (digits2_pos_upper b) as Ub. fold d2 in Ub.
    assert (H2 : 0 < d2) by (unfold d2; lia).
    assert (H1 : 0 < d1) by (unfold d1; lia).
    assert (X : 2 ^ (d1 - 1) < 2 ^ (dq + d2)).
    { rewrite Z.pow_add_r by lia. rewrite Pos2Z.inj_mul in L. nia. }
    assert (d1 - 1 < dq + d2); [|lia].
    apply (Z.pow_lt_mono_r_iff 2); [lia|clear - Hq H2; lia|exact X]. }
  set (e' := Z.min (fexp prec emax (d1 + 0 - (d2 + 0))) (0 - 0)).
  assert (E : e' <= - j).
  { unfold e', j, fexp, emin, prec, emax in *. lia. }
  replace (0 - 0 - e') with (- e') by lia.
  replace (0 <=? - e') with true by (symmetry; apply Z.leb_le; lia).
  rewrite Pos2Z.inj_mul.
  replace (Zpos q * Zpos b * 2 ^ (- e')) with (Zpos q * 2 ^ (- e') * Zpos b) by ring.
  rewrite Z.div_mul, Z.mod_mul by discriminate.
  rewrite new_location_zero, Bool.xorb_false_r.
  replace (- e') with (j + (- e' - j)) by lia.
  rewrite Z.pow_add_r, Z.mul_assoc by lia.
  replace e' with (- j - (- e' - j)) at 2 by lia.
  destruct (shifted_positive q j J0) as [m [<- Dm]].
  apply binary_round_aux_shift_exact; [lia|].
  rewrite Dm. fold dq. unfold j. replace (dq + Z.max 0 (- fexp prec emax dq) + - Z.max 0 (- fexp prec emax dq)) with dq by lia.
  lia.
Qed.

Lemma int_true_divide_exact (q : Z) (b : positive) :
  int_true_divide (q * Zpos b) (Zpos b) = int_to_float q.
Proof.
  unfold int_true_divide, int_to_float, binary_normalize.
  destruct q as [|p|p]; [reflexivity| |];
    cbn [Z.mul Z.abs Z.to_pos Z.ltb Z.compare]; now rewrite div_exact_multiple.
Qed.

Lemma binary_round_aux_opp (sx : bool) (m e : Z) (l : location) :
  binary_round_aux prec emax (negb sx) m e l
  = SFopp (binary_round_aux prec emax sx m e l).
Proof.
  unfold binary_round_aux.
  destruct (shr_fexp prec emax m e l) as [mrs' e'].
  destruct (shr_fexp prec emax _ e' loc_Exact) as [mrs'' e''].
  destruct (shr_m mrs''); try reflexivity.
  destruct (e'' <=? emax - prec); reflexivity.
Qed.

Lemma div_opp (sx sy : bool) (a b : positive) :
  Float64.div (S754_finite (negb sx) a 0) (S754_finite sy b 0)
  = SFopp (Float64.div (S754_finite sx a 0) (S754_finite sy b 0)).
Proof.
  unfold Float64.div, SFdiv.
  destruct (SFdiv_core_binary prec emax (Zpos a) 0 (Zpos b) 0) as [[mz ez] lz].
  rewrite <- binary_round_aux_opp. f_equal. now destruct sx, sy.
Qed.

Lemma int_true_divide_opp (a b : Z) :
  a <> 0 ->
  int_true_divide (- a) b =
  result_bind (int_true_divide a b) (fun f => Ok (SFopp f)).
Proof.
  intros A. unfold int_true_divide.
  destruct b as [|b|b]; [reflexivity| |];
    (destruct a as [|a|a]; [congruence| |]);
    cbn [Z.opp Z.abs Z.to_pos Z.ltb Z.compare].
  - change true with (negb false) at 1. rewrite div_opp.
    destruct (Float64.div _ _); reflexivity.
  - change false with (negb true) at 1. rewrite div_opp.
    destruct (Float64.div _ _); reflexivity.
  - change true with (negb false) at 1. rewrite div_opp.
    destruct (Float64.div _ _); reflexivity.
  - change false with (negb true) at 1. rewrite div_opp.
    destruct (Float64.div _ _); reflexivity.
Qed.

Lemma binary_round_aux_nonneg (m e : Z) (l : location) :
  0 <= m ->
  py_nonneg (PyFloat (binary_round_aux prec emax false m e l)) = true.
Proof.
  intros M. unfold binary_round_aux, shr_fexp.
  set (n1 := fexp prec emax (Zdigits2 m + e) - e).
  destruct (shr_m_shr (shr_record_of_loc m l) e n1) as [S1 _].
  { now rewrite shr_m_record_of_loc. }
  rewrite shr_m_record_of_loc in S1.
  destruct (shr (shr_record_of_loc m l) e n1) as [mrs' e'].
  cbn [fst] in S1.
  pose proof (round_nearest_even_ge (shr_m mrs') (loc_of_shr_record mrs')) as R0.
  set (m1 := round_nearest_even (shr_m mrs') (loc_of_shr_record mrs')) in *.
  assert (Q0 : 0 <= shr_m mrs').
  { rewrite S1. apply Z.div_pos; [exact M|]. apply Z.pow_pos_nonneg; lia. }
  set (n2 := fexp prec emax (Zdigits2 m1 + e') - e').
  destruct (shr_m_shr (shr_record_of_loc m1 loc_Exact) e' n2) as [S2 _].
  { cbn [shr_record_of_loc shr_m]. lia. }
  cbn [shr_record_of_loc shr_m] in S2.
  change (shr_record_of_loc m1 loc_Exact)
    with (Build_shr_record m1 false false) in *.
  destruct (shr (Build_shr_record m1 false false) e' n2) as [mrs'' e''].
  cbn [fst] in S2.
  assert (Q2 : 0 <= shr_m mrs'').
  { rewrite S2. apply Z.div_pos; [lia|]. apply Z.pow_pos_nonneg; lia. }
  destruct (shr_m mrs'') as [|m2|m2]; [reflexivity| |lia].
  destruct (e'' <=? emax - prec); reflexivity.
Qed.

Lemma int_true_divide_nonneg (a : Z) (b : positive) (f : spec_float) :
  0 <= a ->
  int_true_divide a (Zpos b) = Ok f -> py_nonneg (PyFloat f) = true.
Proof.
  intros A. unfold int_true_divide.
  destruct a as [|p|p]; [intros [= <-]; reflexivity| |lia].
  cbn [Z.abs Z.to_pos Z.ltb Z.compare].
  assert (N : py_nonneg (PyFloat (Float64.div (S754_finite false p 0)
                                   (S754_finite false b 0))) = true).
  { unfold Float64.div, SFdiv, SFdiv_core_binary.
    rewrite shifted_mantissa, div_eucl_pair. cbn [xorb].
    apply binary_round_aux_nonneg.
    destruct (0 <=? _); [|rewrite Z.div_0_l; lia].
    apply Z.div_pos; [|lia].
    apply Z.mul_nonneg_nonneg; [lia|]. apply Z.pow_nonneg. lia. }
  destruct (Float64.div _ _); try discriminate; intros [= <-]; exact N.
Qed.

End Quotients.

(** ** Sums and averages of [int]s and of floats *)

Lemma py_truediv_is_float (a b v : number) :
  py_truediv a b = Ok v -> is_float v = true.
Proof.
  destruct a as [x|f], b as [y|g]; cbn [py_truediv].
  - destruct (int_true_divide x y); cbn [result_bind]; intros [= <-]; reflexivity.
  - destruct (int_to_float x); cbn [result_bind]; [|discriminate].
    destruct (float_true_divide _ g); cbn [result_bind]; intros [= <-]; reflexivity.
  - destruct (int_to_float y); cbn [result_bind]; [|discriminate].
    destruct (float_true_divide f _); cbn [result_bind]; intros [= <-]; reflexivity.
  - destruct (float_true_divide f g); cbn [result_bind]; intros [= <-]; reflexivity.
Qed.

Lemma Zsum_app (xs ys : list Z) : Zsum (xs ++ ys) = Zsum xs + Zsum ys.
Proof. induction xs as [|x xs IH]; simpl; lia. Qed.

Lemma sum_from_floats_from_zero (xs : list number) :
  xs <> [] -> forallb is_float xs = true ->
  exists g, sum_from (PyInt 0) xs = Ok (PyFloat g).
Proof.
  intros N H. destruct xs as [|x xs]; [congruence|].
  cbn [forallb] in H. apply andb_true_iff in H. destruct H as [X H].
  destruct x as [y|g]; [discriminate X|]. cbn [sum_from py_add].
  change (int_to_float 0) with (Ok (S754_zero false)). cbn [result_bind].
  apply sum_from_all_floats. exact H.
Qed.

Lemma average_of_ints_run (h : heap) (items : ref) (z : Z) (zs : list Z) :
  h items = map PyInt (z :: zs) ->
  fst (calculate_average items h) =
  result_bind (int_true_divide (Zsum (z :: zs)) (Zpos (Pos.of_succ_nat (length zs))))
    (fun f => Ok (PyFloat f)).
Proof.
  intros E. rewrite calculate_average_run, E. cbn [fst].
  cbn [map]. change (PyInt z :: map PyInt zs) with (map PyInt (z :: zs)).
  rewrite sum_from_ints. cbn [result_bind py_truediv].
  now rewrite Z.add_0_l, length_map.
Qed.

Lemma average_exact_run (h : heap) (items : ref) (zs : list Z) (q : Z) :
  h items = map PyInt zs ->
  zs <> [] ->
  Zsum zs = q * Z.of_nat (length zs) ->
  fst (calculate_average items h) =
  result_bind (int_to_float q) (fun f => Ok (PyFloat f)).
Proof.
  intros E N D. destruct zs as [|z zs]; [congruence|].
  rewrite (average_of_ints_run h items z zs E), D.
  cbn [length Z.of_nat]. now rewrite int_true_divide_exact.
Qed.

Lemma Zsum_repeat (v : Z) (n : nat) : Zsum (repeat v n) = v * Z.of_nat n.
Proof.
  induction n as [|n IH]; [simpl; lia|].
  cbn [repeat]. change (Zsum (v :: repeat v n)) with (v + Zsum (repeat v n)).
  rewrite IH, Nat2Z.inj_succ. lia.
Qed.

Lemma Zsum_opp (zs : list Z) : Zsum (map Z.opp zs) = - Zsum zs.
Proof. induction zs as [|z zs IH]; simpl in *; lia. Qed.

Lemma Zsum_nonneg (zs : list Z) : Forall (fun z => 0 <= z) zs -> 0 <= Zsum zs.
Proof. induction 1; simpl; lia. Qed.

(** ** The properties *)

(** X1: [calculate_average] returns an [int] only on the empty sequence,
    where it returns 0; on a sequence with an item, whatever it returns is a
    float, also when every item is an [int]. *)
Theorem average_int_only_when_empty (h : heap) (items : ref) (v : number) :
  fst (calculate_average items h) = Ok v ->
  (h items = [] /\ v = PyInt 0) \/ (h items <> [] /\ is_float v = true).
Proof.
  rewrite calculate_average_run. cbn [fst].
  destruct (h items) as [|x xs].
  - intros [= <-]. left. split; reflexivity.
  - intros E. right. split; [discriminate|].
    destruct (sum_from (PyInt 0) (x :: xs)) as [t|e]; cbn [result_bind] in E;
      [|discriminate].
    exact (py_truediv_is_float _ _ _ E).
Qed.

Lemma average_int_only_when_empty_witness :
  let h : heap := fun _ => [PyInt 1; PyInt 2] in
  fst (calculate_average 0%nat h) = Ok one_and_a_half /\
  ((h 0%nat = [] /\ one_and_a_half = PyInt 0) \/
   (h 0%nat <> [] /\ is_float one_and_a_half = true)).
Proof.
  intros h.
  assert (E : fst (calculate_average 0%nat h) = Ok one_and_a_half)
    by (vm_compute; reflexivity).
  split; [exact E|].
  exact (average_int_only_when_empty h 0%nat one_and_a_half E).
Defined.

(** X2: on [int]s the total of a concatenation is the sum of the totals of
    its two parts. *)
Theorem total_of_concatenation (h : heap) (items front back : ref)
    (xs ys : list Z) :
  h front = map PyInt xs ->
  h back = map PyInt ys ->
  h items = h front ++ h back ->
  fst (calculate_total items h) =
  result_bind (fst (calculate_total front h)) (fun a =>
  result_bind (fst (calculate_total back h)) (fun b => py_add a b)).
Proof.
  intros L R E. rewrite !calculate_total_run. cbn [fst].
  rewrite E, L, R, <- map_app, !sum_from_ints. cbn [result_bind py_add].
  now rewrite Zsum_app.
Qed.

Lemma total_of_concatenation_witness :
  let h : heap := fun r =>
    match r with
    | O => map PyInt [1; 2; 3]
    | S O => map PyInt [1; 2]
    | _ => map PyInt [3]
    end in
  fst (calculate_total 0%nat h) =
  result_bind (fst (calculate_total 1%nat h)) (fun a =>
  result_bind (fst (calculate_total 2%nat h)) (fun b => py_add a b)).
Proof.
  intros h.
  apply (total_of_concatenation h 0%nat 1%nat 2%nat [1; 2] [3]);
    reflexivity.
Defined.

(** X3: on [int]s the average does not depend on the order of the items. *)
Theorem average_of_ints_permutation (h : heap) (items items' : ref)
    (xs ys : list Z) :
  h items = map PyInt xs ->
  h items' = map PyInt ys ->
  Permutation xs ys ->
  fst (calculate_average items h) = fst (calculate_average items' h).
Proof.
  intros E E' P. rewrite !calculate_average_run, E, E'. cbn [fst].
  rewrite !length_map, !sum_from_ints.
  rewrite (Zsum_Permutation xs ys P), (Permutation_length P).
  destruct xs as [|x xs], ys as [|y ys]; try reflexivity.
  - apply Permutation_nil in P. discriminate P.
  - apply Permutation_sym, Permutation_nil in P. discriminate P.
Qed.

Lemma average_of_ints_permutation_witness :
  let h : heap := fun r =>
    match r with
    | O => map PyInt [3; 1; 2]
    | _ => map PyInt [1; 2; 3]
    end in
  fst (calculate_average 0%nat h) = fst (calculate_average 1%nat h).
Proof.
  intros h.
  apply (average_of_ints_permutation h 0%nat 1%nat [3; 1; 2] [1; 2; 3]).
  - reflexivity.
  - reflexivity.
  - apply perm_trans with [1; 3; 2]; [apply perm_swap|].
    apply perm_skip, perm_swap.
Defined.

(** X4: on a sequence of floats of at most 2^53 items [calculate_average]
    returns a number: it raises neither [ZeroDivisionError] nor
    [OverflowError], whatever the floats (infinities and NaN included). *)
Theorem average_of_floats_returns (h : heap) (items : ref) :
  forallb is_float (h items) = true ->
  Z.of_nat (length (h items)) <= 2 ^ 53 ->
  exists v, fst (calculate_average items h) = Ok v.
Proof.
  intros F L. rewrite calculate_average_run. cbn [fst].
  destruct (h items) as [|x xs] eqn:E; [eauto|].
  destruct (sum_from_floats_from_zero (x :: xs)) as [g ->]; [discriminate|exact F|].
  cbn [result_bind py_truediv].
  destruct (int_to_float_exact (Z.of_nat (length (x :: xs)))) as [f [I _]]; [lia|].
  rewrite I. cbn [result_bind]. unfold float_true_divide.
  cbn [length Z.of_nat] in I.
  rewrite (int_to_float_not_zero _ _ I). cbn [result_bind]. eauto.
Qed.

Lemma average_of_floats_returns_witness :
  let h : heap :=
    fun _ => [PyFloat Float64.one; PyFloat (S754_infinity true); PyFloat S754_nan] in
  exists v, fst (calculate_average 0%nat h) = Ok v.
Proof.
  intros h. apply (average_of_floats_returns h 0%nat).
  - reflexivity.
  - simpl. lia.
Defined.

(** X5: on a non-empty sequence of [int]s whose sum is below 2^1023 in
    magnitude [calculate_average] returns a finite float: no exception, no
    infinity, no NaN. *)
Theorem average_of_ints_returns (h : heap) (items : ref) (zs : list Z) :
  h items = map PyInt zs ->
  zs <> [] ->
  Z.abs (Zsum zs) < 2 ^ 1023 ->
  exists f, fst (calculate_average items h) = Ok (PyFloat f) /\
            Float64.is_finite f = true.
Proof.
  intros E N B. rewrite calculate_average_run, E. cbn [fst].
  destruct zs as [|z zs]; [congruence|].
  cbn [map]. change (PyInt z :: map PyInt zs) with (map PyInt (z :: zs)).
  rewrite sum_from_ints. cbn [result_bind py_truediv].
  rewrite Z.add_0_l, length_map. cbn [length Z.of_nat].
  destruct (int_true_divide_in_range (Zsum (z :: zs)) (Pos.of_succ_nat (length zs)) B)
    as [f [-> F]].
  cbn [result_bind]. eauto.
Qed.

Lemma average_of_ints_returns_witness :
  let h : heap := fun _ => map PyInt [5; -16] in
  exists f, fst (calculate_average 0%nat h) = Ok (PyFloat f) /\
            Float64.is_finite f = true.
Proof.
  intros h. apply (average_of_ints_returns h 0%nat [5; -16]).
  - reflexivity.
  - discriminate.
  - vm_compute. reflexivity.
Defined.

(** X6: when the number of items divides the sum of a non-empty sequence of
    [int]s, [calculate_average] is the conversion of the exact quotient q to
    a float, however large the sum; it compares equal to q when q is at most
    2^53 in magnitude. *)
Theorem average_of_exact_quotient (h : heap) (items : ref) (zs : list Z)
    (q : Z) :
  h items = map PyInt zs ->
  zs <> [] ->
  Zsum zs = q * Z.of_nat (length zs) ->
  fst (calculate_average items h) =
    result_bind (int_to_float q) (fun f => Ok (PyFloat f)) /\
  (Z.abs q <= 2 ^ 53 ->
   returns_eq (fst (calculate_average items h)) (PyInt q) = true).
Proof.
  intros E N D. rewrite (average_exact_run h items zs q E N D).
  split; [reflexivity|]. intros B.
  destruct (int_to_float_exact q B) as [f [-> F]]. exact F.
Qed.

Lemma average_of_exact_quotient_witness :
  let h : heap := fun _ => map PyInt [2 ^ 60 + 1; 2 ^ 60 - 1; 13] in
  fst (calculate_average 0%nat h) =
    result_bind (int_to_float 768614336404564655) (fun f => Ok (PyFloat f)).
Proof.
  intros h.
  apply (average_of_exact_quotient h 0%nat [2 ^ 60 + 1; 2 ^ 60 - 1; 13]
           768614336404564655).
  - reflexivity.
  - discriminate.
  - vm_compute. reflexivity.
Defined.

(** X7: the average of one or more copies of an [int] v of magnitude at most
    2^53 compares equal to v. *)
Theorem average_of_equal_ints (h : heap) (items : ref) (v : Z) (n : nat) :
  h items = repeat (PyInt v) (S n) ->
  Z.abs v <= 2 ^ 53 ->
  returns_eq (fst (calculate_average items h)) (PyInt v) = true.
Proof.
  intros E B.
  assert (E' : h items = map PyInt (repeat v (S n))) by now rewrite map_repeat.
  rewrite (average_exact_run h items (repeat v (S n)) v E').
  - destruct (int_to_float_exact v B) as [f [-> F]]. exact F.
  - discriminate.
  - now rewrite Zsum_repeat, repeat_length.
Qed.

Lemma average_of_equal_ints_witness :
  let h : heap := fun _ => [PyInt 7; PyInt 7; PyInt 7] in
  returns_eq (fst (calculate_average 0%nat h)) (PyInt 7) = true.
Proof.
  intros h. apply (average_of_equal_ints h 0%nat 7 2).
  - reflexivity.
  - vm_compute. discriminate.
Defined.

(** X8: negating every item of a sequence of [int]s with a non-zero sum
    negates the average (rounding is symmetric), failures included. *)
Theorem average_of_negated_ints (h : heap) (items items' : ref)
    (zs : list Z) :
  h items = map PyInt zs ->
  h items' = map PyInt (map Z.opp zs) ->
  Zsum zs <> 0 ->
  fst (calculate_average items' h) =
  result_bind (fst (calculate_average items h)) (fun v => Ok (py_neg v)).
Proof.
  intros E E' N. destruct zs as [|z zs]; [now elim N|].
  rewrite (average_of_ints_run h items z zs E).
  change (map Z.opp (z :: zs)) with (Z.opp z :: map Z.opp zs) in E'.
  rewrite (average_of_ints_run h items' (- z) (map Z.opp zs) E').
  change (- z :: map Z.opp zs) with (map Z.opp (z :: zs)).
  rewrite Zsum_opp, length_map, (int_true_divide_opp _ _ N).
  destruct (int_true_divide _ _); reflexivity.
Qed.

Lemma average_of_negated_ints_witness :
  let h : heap := fun r =>
    match r with
    | O => map PyInt [1; 2]
    | _ => map PyInt [-1; -2]
    end in
  fst (calculate_average 1%nat h) =
  result_bind (fst (calculate_average 0%nat h)) (fun v => Ok (py_neg v)).
Proof.
  intros h. apply (average_of_negated_ints h 0%nat 1%nat [1; 2]).
  - reflexivity.
  - reflexivity.
  - vm_compute. discriminate.
Defined.

(** X9: the average of a sequence of non-negative [int]s, when it returns,
    is a number that is >= 0: never a negative float, never a NaN. *)
Theorem average_of_nonnegative_ints (h : heap) (items : ref) (zs : list Z)
    (v : number) :
  h items = map PyInt zs ->
  Forall (fun z => 0 <= z) zs ->
  fst (calculate_average items h) = Ok v ->
  py_nonneg v = true.
Proof.
  intros E P. destruct zs as [|z zs].
  - rewrite calculate_average_run, E. intros [= <-]. reflexivity.
  - rewrite (average_of_ints_run h items z zs E).
    destruct (int_true_divide _ _) as [f|e] eqn:D; cbn [result_bind];
      [|discriminate].
    intros [= <-].
    exact (int_true_divide_nonneg _ _ f (Zsum_nonneg _ P) D).
Qed.

Lemma average_of_nonnegative_ints_witness :
  let h : heap := fun _ => map PyInt [0; 3] in
  fst (calculate_average 0%nat h) = Ok one_and_a_half /\
  py_nonneg one_and_a_half = true.
Proof.
  intros h.
  assert (E : fst (calculate_average 0%nat h) = Ok one_and_a_half)
    by (vm_compute; reflexivity).
  split; [exact E|].
  apply (average_of_nonnegative_ints h 0%nat [0; 3] one_and_a_half).
  - reflexivity.
  - repeat constructor; lia.
  - exact E.
Defined.
